(** * The IDX gateway router ([src/api/endpoints.py])

    A shallow embedding of the five request handlers of the router and the
    properties of its request-forwarding, error-translation and
    claim-tracking behaviour.

    The handlers run against two things the module does not own:
    - the process-wide set [claimed_incidents] and the outbound HTTP traffic,
      kept in an explicit [World] that every handler threads through;
    - the libraries [json] and [httpx] and the upstream EIDO Agent, whose
      answers are taken as parameters of the development. *)

From Stdlib Require Import ZArith Strings.Byte Strings.String.
From stdpp Require Import base gmap sets list strings.

Local Open Scope Z_scope.

(** ** Python values and strings *)

(** What [json.loads] produces and what the handlers return to the
    framework: [None], booleans, numbers, strings, lists and dicts (in
    insertion order).  A float is kept as its literal. *)
#[warnings="-register-all"]
Inductive value : Type :=
| VNone
| VBool (b : bool)
| VInt (n : Z)
| VFloat (literal : string)
| VStr (s : string)
| VList (items : list value)
| VDict (items : list (string * value)).

(** [bytes], as [UploadFile.read] returns and [Response.content] holds. *)
Abbreviation bytes := (list byte).

(** [s.endswith(suffix)]: the last [len(suffix)] characters of [s] are
    [suffix]; no case folding. *)
Definition endswith (s suffix : string) : bool :=
  let n := String.length s in
  let k := String.length suffix in
  (k <=? n)%nat && String.eqb (String.substring (n - k) k s) suffix.

(** [sub in s] on strings, as a proposition. *)
Definition contains (s sub : string) : Prop :=
  exists pre post, s = pre +:+ sub +:+ post.

(** ** httpx: requests, responses, exceptions *)

Inductive Method : Type := GET | POST.

(** An outbound call: [client.get(url)] or [client.post(url, json=data)]. *)
Record Request : Type := mkRequest {
  method : Method;
  url : string;
  json_body : option value
}.

(** What an [httpx.Response] holds: the status, the headers and the bytes
    of the body.  Its [text] and its [json()] are computed from these and
    can fail; they are part of the environment below. *)
Record Response : Type := mkResponse {
  status_code : Z;
  headers : list (string * string);
  content : bytes
}.

(** [Response.is_success]: the 2xx range. *)
Definition is_success (r : Response) : bool :=
  (200 <=? status_code r) && (status_code r <=? 299).

(** The subclasses of [httpx.RequestError]; [except httpx.RequestError]
    catches every one of them. *)
Inductive RequestErrorClass : Type :=
| ConnectError          (* connection refused, DNS resolution failure *)
| ConnectTimeout
| ReadTimeout
| WriteTimeout
| PoolTimeout
| ReadError
| WriteError
| CloseError
| ProxyError
| UnsupportedProtocol
| LocalProtocolError
| RemoteProtocolError
| DecodingError
| TooManyRedirects.

(** The exceptions the library calls inside the handlers can raise.  Each
    carries [str(e)] as [message]; [HTTPStatusError] also carries
    [e.response].  [CancelledError] stands for the exceptions that derive
    from [BaseException] but not from [Exception]. *)
Inductive exn : Type :=
| HTTPStatusError (message : string) (response : Response)
| RequestError (cls : RequestErrorClass) (message : string)
| JSONDecodeError (message : string)
| UnicodeDecodeError (message : string)
| OtherException (cls : string) (message : string)
| CancelledError.

(** [str(e)], as the f-strings of the handlers interpolate it. *)
Definition str (e : exn) : string :=
  match e with
  | HTTPStatusError message _ => message
  | RequestError _ message => message
  | JSONDecodeError message => message
  | UnicodeDecodeError message => message
  | OtherException _ message => message
  | CancelledError => ""
  end.

(** [isinstance(e, Exception)]: what an [except Exception] clause catches. *)
Definition is_Exception (e : exn) : bool :=
  match e with
  | CancelledError => false
  | _ => true
  end.

(** What leaves a handler when it does not return: the [HTTPException] it
    raised itself, or a library exception no [except] clause caught (the
    framework answers that one with a bare 500). *)
Inductive raised : Type :=
| HTTPException (status_code : Z) (detail : string)
| Uncaught (e : exn).

(** The status of the HTTP response the framework sends for what a handler
    raised: the status of the [HTTPException], and 500 Internal Server Error
    for an exception that nothing caught. *)
Definition response_status (r : raised) : Z :=
  match r with
  | HTTPException status_code _ => status_code
  | Uncaught _ => 500
  end.

(** A [fastapi.UploadFile]: the client's file name and the bytes
    [await file.read()] yields. *)
Record UploadFile : Type := mkUploadFile {
  filename : string;
  read : bytes
}.

(** ** The world and the handler monad *)

(** [claimed_incidents] is the module-level set; [sent] is the log of the
    outbound calls attempted so far, oldest first. *)
Record World : Type := mkWorld {
  claimed_incidents : gset string;
  sent : list Request
}.

(** The module as loaded: [claimed_incidents = set()], nothing sent. *)
Definition initial : World := mkWorld ∅ [].

(** The world once the outbound call [req] has been attempted. *)
Definition after_call (w : World) (req : Request) : World :=
  mkWorld (claimed_incidents w) (sent w ++ [req]).

Inductive outcome (E A : Type) : Type :=
| Returns (a : A)
| Raises (e : E).
Arguments Returns {E A} a.
Arguments Raises {E A} e.

(** A computation that reads and updates the world and either returns a
    value or raises an [E]. *)
Definition M (E A : Type) : Type := World -> outcome E A * World.

Definition ret {E A} (a : A) : M E A := fun w => (Returns a, w).

Definition raise {E A} (e : E) : M E A := fun w => (Raises e, w).

Definition bind {E A B} (m : M E A) (k : A -> M E B) : M E B :=
  fun w =>
    match m w with
    | (Returns a, w') => k a w'
    | (Raises e, w') => (Raises e, w')
    end.

(** [try: body  except ...: handler]: the handler sees the exception the
    body raised and the world the body left. *)
Definition try_except {E F A} (body : M E A) (handler : E -> M F A) : M F A :=
  fun w =>
    match body w with
    | (Returns a, w') => (Returns a, w')
    | (Raises e, w') => handler e w'
    end.

(** A call into a pure library function. *)
Definition call {E A} (r : outcome E A) : M E A := fun w => (r, w).

(** A call into a pure library function from inside an [except] clause:
    what it raises is caught by no clause and leaves the handler. *)
Definition call_uncaught {A} (r : outcome exn A) : M raised A :=
  fun w =>
    (match r with
     | Returns a => Returns a
     | Raises e => Raises (Uncaught e)
     end, w).

Notation "x <- m ;; k" := (bind m (fun x => k))
  (at level 100, m at next level, right associativity).
Notation "m ;;; k" := (bind m (fun _ => k))
  (at level 100, right associativity).
Notation "'try_' body 'except' handler" := (try_except body handler)
  (at level 10, body at level 9, handler at level 9).

(** ** The environment of the router *)

(** What the handlers call but the module does not define. *)
Record Env : Type := mkEnv {
  (** [settings.eido_agent_url], read once when the module is loaded *)
  eido_agent_url : string;
  (** [json.loads] on the bytes of an uploaded file *)
  loads : bytes -> outcome exn value;
  (** [Response.json()]: the response body run through the JSON decoder *)
  json : Response -> outcome exn value;
  (** [Response.text]: the response body decoded with the charset of its
      [Content-Type]; it raises when the decoder of that charset does (a
      [utf-16] body without byte order mark, for one) *)
  text : Response -> outcome exn string;
  (** the network and the EIDO Agent behind it: what an outbound call
      meets, given the calls made before it *)
  upstream : list Request -> Request -> outcome exn Response;
  (** the text [raise_for_status] puts in the [HTTPStatusError] it raises *)
  status_message : Response -> string
}.

(** The exceptions with which the JSON decoder rejects a body that is not a
    JSON document: [JSONDecodeError] for malformed text, and
    [UnicodeDecodeError] for bytes that are not UTF-8/16/32 text at all
    (the decoder raises it before it parses anything). *)
Definition invalid_json (e : exn) : bool :=
  match e with
  | JSONDecodeError _ | UnicodeDecodeError _ => true
  | _ => false
  end.

(** ** The handlers *)

Section Router.

Context (env : Env).

Local Abbreviation EIDO_AGENT_URL := (eido_agent_url env).

(** The pydantic model of the correlation request body
    ([models.schemas.CorrelationRequest]). *)
Context {CorrelationRequest : Type}.

(** [async with httpx.AsyncClient() as client: await client.request(...)]:
    the call is logged, then answered. *)
Definition client_send (req : Request) : M exn Response :=
  fun w => (upstream env (sent w) req, after_call w req).

Definition client_get (u : string) : M exn Response :=
  client_send (mkRequest GET u None).

Definition client_post (u : string) (data : value) : M exn Response :=
  client_send (mkRequest POST u (Some data)).

(** [response.raise_for_status()]. *)
Definition raise_for_status (response : Response) : M exn Response :=
  if is_success response then ret response
  else raise (HTTPStatusError (status_message env response) response).

(** [GET /api/v1/incidents] *)
Definition get_incidents : M raised value :=
  try_ (
    response <- client_get (EIDO_AGENT_URL +:+ "/api/v1/incidents") ;;
    raise_for_status response ;;;
    call (json env response)
  ) except (fun e =>
    match e with
    | HTTPStatusError _ response =>
        body_text <- call_uncaught (text env response) ;;
        raise (HTTPException (status_code response)
                 ("Error from EIDO Agent: " +:+ body_text))
    | RequestError _ _ =>
        raise (HTTPException 502
                 ("Error connecting to EIDO Agent: " +:+ str e))
    | _ =>
        if is_Exception e then
          raise (HTTPException 500
                   ("An unexpected error occurred while fetching incidents: "
                      +:+ str e))
        else raise (Uncaught e)
    end).

(** [claimed_incidents.add(incident_id)] *)
Definition add (incident_id : string) : M raised unit :=
  fun w => (Returns tt,
            mkWorld ({[incident_id]} ∪ claimed_incidents w) (sent w)).

(** [POST /api/v1/incidents/{incident_id}/claim] *)
Definition claim_incident (incident_id : string) : M raised value :=
  add incident_id ;;;
  ret (VDict [("message",
               VStr ("Incident " +:+ incident_id +:+ " claimed."))]).

(** [GET /api/v1/incidents/claimed]: [list(claimed_incidents)], in the
    iteration order of the set. *)
Definition get_claimed_incidents : M raised (list string) :=
  fun w => (Returns (elements (claimed_incidents w)), w).

(** [POST /api/v1/eido/upload] *)
Definition upload_eido (file : UploadFile) : M raised value :=
  if negb (endswith (filename file) ".json") then
    raise (HTTPException 400
             "Invalid file type. Only .json files are accepted.")
  else
    let content := read file in
    eido_data <-
      try_ (call (loads env content))
      except (fun e =>
        match e with
        | JSONDecodeError _ =>
            raise (HTTPException 400 "Invalid JSON format in uploaded file.")
        | _ => raise (Uncaught e)
        end) ;;
    try_ (
      response <- client_post (EIDO_AGENT_URL +:+ "/api/v1/ingest") eido_data ;;
      raise_for_status response ;;;
      call (json env response)
    ) except (fun e =>
      match e with
      | HTTPStatusError _ response =>
          body_text <- call_uncaught (text env response) ;;
          raise (HTTPException (status_code response)
                   ("Error from EIDO Agent: " +:+ body_text))
      | RequestError _ _ =>
          raise (HTTPException 502
                   ("Could not connect to EIDO Agent: " +:+ str e))
      | JSONDecodeError _ =>
          raise (HTTPException 502
                   "Received an invalid response from the EIDO Agent.")
      | _ =>
          if is_Exception e then
            raise (HTTPException 500
                     ("An unexpected error occurred: " +:+ str e))
          else raise (Uncaught e)
      end).

(** [POST /api/v1/incidents/correlate] *)
Definition correlate_incident (request : CorrelationRequest) : M raised value :=
  ret (VDict [("status", VStr "new"); ("correlation_id", VNone)]).

(** The routes of the router, with the arguments the framework hands to
    the handler. *)
Inductive Route : Type :=
| GetIncidents
| ClaimIncident (incident_id : string)
| GetClaimedIncidents
| UploadEido (file : UploadFile)
| CorrelateIncident (request : CorrelationRequest).

(** One request served: the handler of the route runs on the current
    world. *)
Definition serve (r : Route) : M raised value :=
  match r with
  | GetIncidents => get_incidents
  | ClaimIncident incident_id => claim_incident incident_id
  | GetClaimedIncidents =>
      ids <- get_claimed_incidents ;; ret (VList (VStr <$> ids))
  | UploadEido file => upload_eido file
  | CorrelateIncident request => correlate_incident request
  end.

(** The world after a sequence of requests served one after the other. *)
Fixpoint serve_all (rs : list Route) (w : World) : World :=
  match rs with
  | [] => w
  | r :: rs' => serve_all rs' (serve r w).2
  end.

Definition is_claim (r : Route) : bool :=
  match r with
  | ClaimIncident _ => true
  | _ => false
  end.

(** The two calls the router makes to the Agent. *)
Definition incidents_request : Request :=
  mkRequest GET (EIDO_AGENT_URL +:+ "/api/v1/incidents") None.

Definition ingest_request (eido_data : value) : Request :=
  mkRequest POST (EIDO_AGENT_URL +:+ "/api/v1/ingest") (Some eido_data).

(** The outbound call a route gets as far as making, if any: the listing
    always asks the Agent; the upload does once the file name and the JSON
    body have passed. *)
Definition outbound (r : Route) : option Request :=
  match r with
  | GetIncidents => Some incidents_request
  | UploadEido file =>
      if endswith (filename file) ".json" then
        match loads env (read file) with
        | Returns eido_data => Some (ingest_request eido_data)
        | Raises _ => None
        end
      else None
  | _ => None
  end.

End Router.

Arguments Route CorrelationRequest : clear implicits.
Arguments serve env {CorrelationRequest} r.
Arguments serve_all env {CorrelationRequest} rs w.
Arguments outbound env {CorrelationRequest} r.

(** The exceptions that reach the last clause, [except Exception], of the
    guarded block of a proxied route: those under [Exception] that no
    earlier clause of the handler names. *)
Definition reaches_catch_all {CorrelationRequest : Type}
    (r : Route CorrelationRequest) (e : exn) : bool :=
  match e with
  | HTTPStatusError _ _ | RequestError _ _ => false
  | JSONDecodeError _ =>
      match r with
      | UploadEido _ => false
      | _ => true
      end
  | _ => is_Exception e
  end.

(** The identifier a request claims, if it is a claim. *)
Definition claimed_id {CorrelationRequest : Type}
    (r : Route CorrelationRequest) : option string :=
  match r with
  | ClaimIncident incident_id => Some incident_id
  | _ => None
  end.

(** ** The request side of the correlation route *)

(** What ends a request before or instead of the handler's return. *)
Inductive route_error : Type :=
| RequestValidationError    (* the body failed validation: answered 422 *)
| HandlerRaised (r : raised).


(** Validation of a JSON body against a pydantic model: the body has to be
    a JSON object, and its items have to pass the validation of the fields,
    which builds the instance.  [CorrelationRequest] is declared in
    [models/schemas.py]: the type of its instances and the validation of
    its fields are parameters. *)
Definition model_validate {A : Type}
    (fields : list (string * value) -> option A) (body : value) : option A :=
  match body with
  | VDict items => fields items
  | _ => None
  end.

(** [POST /api/v1/incidents/correlate] from the body to the handler's
    return: the parameter [request: CorrelationRequest] makes the framework
    validate the JSON body first; a body that fails is answered with 422
    and [correlate_incident] does not run. *)
Definition post_correlate {CorrelationRequest : Type}
    (fields : list (string * value) -> option CorrelationRequest)
    (body : value) : M route_error value :=
  match model_validate fields body with
  | None => raise RequestValidationError
  | Some request =>
      try_ (correlate_incident request)
      except (fun r => raise (HandlerRaised r))
  end.

(** ** A test double for the environment *)

Definition bytes_of (s : string) : bytes := list_byte_of_string s.

(** Stands in for [json.loads] on the bodies the examples use, with the
    answers and messages of CPython 3.11: the array [[1, 2]], bodies that
    start with the byte [0xff] and are no UTF-8, UTF-16 or UTF-32 text, and
    malformed text that fails at its first character. *)
Definition sample_loads (b : bytes) : outcome exn value :=
  match b with
  | [xff] | xff :: xff :: _ =>
      Raises (UnicodeDecodeError
        "'utf-8' codec can't decode byte 0xff in position 0: invalid start byte")
  | _ =>
      if String.eqb (string_of_list_byte b) "[1, 2]"
      then Returns (VList [VInt 1; VInt 2])
      else Raises (JSONDecodeError "Expecting value: line 1 column 1 (char 0)")
  end.

(** The headers of a body labelled as UTF-16 text. *)
Definition utf_16_labelled : list (string * string) :=
  [("content-type", "text/plain; charset=utf-16")].

(** Stands in for [Response.text] on the responses the examples use: ASCII
    bodies without charset, which decode to themselves; bodies that start
    with the byte [0xff], which decode to replacement characters; and ASCII
    bodies labelled as UTF-16, on which the UTF-16 decoder raises for want
    of a byte order mark. *)
Definition sample_text (r : Response) : outcome exn string :=
  if bool_decide (headers r = utf_16_labelled) then
    Raises (OtherException "UnicodeError"
              "UTF-16 stream does not start with BOM")
  else
    match content r with
    | xff :: _ =>
        Returns (string_of_list_byte
                   (mjoin (replicate (length (content r)) [xef; xbf; xbd])))
    | b => Returns (string_of_list_byte b)
    end.

(** An environment in which every outbound call meets [answer]. *)
Definition sample_env (answer : outcome exn Response) : Env := {|
  eido_agent_url := "http://eido-agent:8000";
  loads := sample_loads;
  json := fun r => sample_loads (content r);
  text := sample_text;
  upstream := fun _ _ => answer;
  status_message := fun _ => "Server error"
|}.

Definition response_of (code : Z) (body : string) : Response :=
  mkResponse code [] (bytes_of body).

(** The incidents are not there, says the upstream in ASCII that it labels
    as UTF-16. *)
Definition not_found_utf_16 : Response :=
  mkResponse 404 utf_16_labelled (bytes_of "Not found").


Definition with_incident_id (items : list (string * value)) : option string :=
  match items with
  | [("incident_id", VStr incident_id)] => Some incident_id
  | _ => None
  end.

(** The upstream of the examples: HTTP 500 with body [server error]. *)
Definition server_error : Response := response_of 500 "server error".

(** The connection to the upstream is refused. *)
Definition refused : exn := RequestError ConnectError "All connection attempts failed".

Definition data_json (body : bytes) : UploadFile := mkUploadFile "data.json" body.

(** Five bytes that are no UTF-8, UTF-16 or UTF-32 text. *)
Definition garbage : bytes := [xff; xff; xff; xff; xff].

Definition garbage_response : Response := mkResponse 200 [] garbage.

(** * Properties *)

(** ** Strings *)

Lemma append_nil_l (t : string) : "" +:+ t = t.
Proof. reflexivity. Qed.

Lemma append_cons (c : Ascii.ascii) (s t : string) :
  String c s +:+ t = String c (s +:+ t).
Proof. reflexivity. Qed.

Lemma append_nil_r (s : string) : s +:+ "" = s.
Proof. induction s as [|c s IH]; [reflexivity | now rewrite append_cons, IH]. Qed.

Lemma length_append (s t : string) :
  String.length (s +:+ t) = (String.length s + String.length t)%nat.
Proof.
  induction s as [|c s IH]; [reflexivity|].
  rewrite append_cons. simpl. now rewrite IH.
Qed.

Lemma substring_all (s : string) : String.substring 0 (String.length s) s = s.
Proof. induction s as [|c s IH]; simpl; [reflexivity | now rewrite IH]. Qed.

Lemma substring_append_r (s t : string) :
  String.substring (String.length s) (String.length t) (s +:+ t) = t.
Proof.
  induction s as [|c s IH]; [apply substring_all|].
  rewrite append_cons. exact IH.
Qed.

Lemma substring_split (s : string) (i : nat) :
  (i <= String.length s)%nat ->
  s = String.substring 0 i s +:+ String.substring i (String.length s - i) s.
Proof.
  revert i. induction s as [|c s IH]; intros [|i] Hi; simpl in *.
  - reflexivity.
  - lia.
  - now rewrite append_nil_l, substring_all.
  - rewrite append_cons. f_equal. apply IH. lia.
Qed.

(** [endswith] is the suffix relation on strings. *)
Lemma endswith_spec (s suffix : string) :
  endswith s suffix = true <-> exists p, s = p +:+ suffix.
Proof.
  unfold endswith. rewrite andb_true_iff, Nat.leb_le, String.eqb_eq. split.
  - intros [Hle Hsub].
    exists (String.substring 0 (String.length s - String.length suffix) s).
    pose proof (substring_split s (String.length s - String.length suffix)) as H.
    replace (String.length s - (String.length s - String.length suffix))%nat
      with (String.length suffix) in H by lia.
    rewrite Hsub in H. apply H. lia.
  - intros [p ->]. rewrite length_append. split; [lia|].
    replace (String.length p + String.length suffix - String.length suffix)%nat
      with (String.length p) by lia.
    apply substring_append_r.
Qed.

Lemma contains_app_r (s t : string) : contains (s +:+ t) t.
Proof. exists s, "". now rewrite append_nil_r. Qed.

(** ** Running the handlers *)

Ltac run :=
  unfold serve, get_incidents, upload_eido, claim_incident,
    get_claimed_incidents, correlate_incident, add, client_get, client_post,
    client_send, raise_for_status, try_except, bind, call, call_uncaught,
    ret, raise, incidents_request, ingest_request in *;
  simpl in *.

(** Case analysis on everything a handler scrutinises, innermost first. *)
Ltac cases :=
  repeat match goal with
         | |- context [negb ?b] => destruct b; simpl
         | |- context [match ?x with _ => _ end] =>
             lazymatch x with
             | context [match _ with _ => _ end] => fail
             | _ => destruct x; simpl
             end
         end.

Lemma outbound_upload env {CR : Type} (file : UploadFile) (req : Request) :
  outbound env (CorrelationRequest := CR) (UploadEido file) = Some req ->
  exists eido_data,
    endswith (filename file) ".json" = true /\
    loads env (read file) = Returns eido_data /\
    req = ingest_request env eido_data.
Proof.
  simpl. destruct (endswith _ _); [|discriminate].
  destruct (loads env (read file)) as [d|]; [|discriminate].
  intros [= <-]. eauto.
Qed.

(** Every route makes at most one outbound call: the one [outbound] names. *)
Lemma serve_sent env {CR : Type} (r : Route CR) (w : World) :
  sent (serve env r w).2 = sent w ++ option_list (outbound env r).
Proof.
  destruct r as [|X| |file|request]; run; cases;
    rewrite ?app_nil_r; reflexivity.
Qed.

(** What each route does to the set of claimed incidents. *)
Lemma serve_claimed env {CR : Type} (r : Route CR) (w : World) :
  claimed_incidents (serve env r w).2 =
    match r with
    | ClaimIncident X => {[X]} ∪ claimed_incidents w
    | _ => claimed_incidents w
    end.
Proof. destruct r as [|X| |file|request]; run; cases; reflexivity. Qed.

(** ** The claimed-incident set *)

(** C1. For every incident identifier [X], claiming [X] and then listing the
    claimed incidents returns a sequence that contains [X]. *)
Theorem claim_then_list_includes (X : string) (w : World) :
  exists ids w',
    (claim_incident X ;;; get_claimed_incidents) w = (Returns ids, w') /\
    X ∈ ids.
Proof.
  eexists _, _. split; [reflexivity|].
  apply elem_of_elements. simpl.
  apply elem_of_union_l, elem_of_singleton. reflexivity.
Qed.

(** No sequence of requests takes an identifier out of the set. *)
Lemma serve_all_mono env {CR : Type} (rs : list (Route CR)) (w : World) :
  claimed_incidents w ⊆ claimed_incidents (serve_all env rs w).
Proof.
  revert w. induction rs as [|r rs IH]; intros w; simpl; [done|].
  etrans; [|apply IH]. rewrite serve_claimed.
  destruct r; try reflexivity. apply union_subseteq_r.
Qed.

(** A claimed identifier stays listed whatever is served in between. *)
Lemma claim_then_serve_then_list env {CR : Type} (X : string)
    (rs : list (Route CR)) (w : World) :
  X ∈ elements (claimed_incidents
                  (serve_all env (ClaimIncident X :: rs) w)).
Proof.
  apply elem_of_elements. simpl.
  apply (serve_all_mono env rs). simpl.
  apply elem_of_union_l, elem_of_singleton. reflexivity.
Qed.

(** C8. Claiming is idempotent: claiming [X] twice answers and leaves the
    world exactly as claiming [X] once does, and the listing of the
    resulting set holds [X] exactly once. *)
Theorem claim_incident_idempotent (X : string) (w : World) :
  (claim_incident X ;;; claim_incident X) w = claim_incident X w /\
  count_occ String.string_dec
    (elements
       (claimed_incidents ((claim_incident X ;;; claim_incident X) w).2))
    X = 1%nat.
Proof.
  split.
  - run. now rewrite (assoc_L (∪)), (idemp_L (∪)).
  - apply NoDup_count_occ'; [apply NoDup_ListNoDup, NoDup_elements|].
    apply list_elem_of_In, elem_of_elements. simpl.
    apply elem_of_union_l, elem_of_singleton. reflexivity.
Qed.

(** A first claim does change the set. *)
Lemma claim_incident_adds (X : string) (w : World) :
  X ∉ claimed_incidents w ->
  claimed_incidents (claim_incident X w).2 ≠ claimed_incidents w.
Proof.
  simpl. intros Hnew Heq. apply Hnew. rewrite <- Heq.
  apply elem_of_union_l, elem_of_singleton. reflexivity.
Qed.

(** C9. Only the claim route touches the set of claimed incidents: the
    listing of incidents, the listing of claims, the upload and the
    correlation leave it as it was, on every input and whether they return
    or raise; and no route ever takes an identifier out of it. *)
Theorem only_claim_modifies env (CR : Type) :
  (forall w, claimed_incidents (get_incidents env w).2 = claimed_incidents w) /\
  (forall w, claimed_incidents (get_claimed_incidents w).2 = claimed_incidents w) /\
  (forall file w,
      claimed_incidents (upload_eido env file w).2 = claimed_incidents w) /\
  (forall (request : CR) w,
      claimed_incidents (correlate_incident request w).2 = claimed_incidents w) /\
  (forall (r : Route CR) w,
      claimed_incidents w ⊆ claimed_incidents (serve env r w).2).
Proof.
  split; [|split; [|split; [|split]]].
  - intros w. apply (serve_claimed env (CR := CR) GetIncidents).
  - reflexivity.
  - intros file w. apply (serve_claimed env (CR := CR) (UploadEido file)).
  - reflexivity.
  - intros r w. rewrite serve_claimed.
    destruct r; try reflexivity. apply union_subseteq_r.
Qed.

(** Over any run of requests without a claim the set does not change. *)
Lemma serve_all_frame env {CR : Type} (rs : list (Route CR)) (w : World) :
  forallb (fun r => negb (is_claim r)) rs = true ->
  claimed_incidents (serve_all env rs w) = claimed_incidents w.
Proof.
  revert w. induction rs as [|r rs IH]; intros w; simpl; [done|].
  rewrite andb_true_iff, negb_true_iff. intros [Hr Hrs].
  rewrite IH by done. rewrite serve_claimed. now destruct r.
Qed.

(** ** Correlation *)

(** The handler itself never looks at the request it is handed: whatever
    the request, and whatever its type, it returns the constant
    [{"status": "new", "correlation_id": None}] and touches nothing. *)
Lemma correlate_incident_constant (CR : Type) (request : CR) (w : World) :
  correlate_incident request w =
    (Returns (VDict [("status", VStr "new"); ("correlation_id", VNone)]), w) /\
  correlate_incident (VDict []) w =
    (Returns (VDict [("status", VStr "new"); ("correlation_id", VNone)]), w).
Proof. split; reflexivity. Qed.

(** A body that does not validate against the request model is refused
    with status 422, the handler does not run and nothing changes; a body
    that is not a JSON object never validates. *)
Lemma post_correlate_refused (CR : Type)
    (fields : list (string * value) -> option CR) (body : value) (w : World) :
  model_validate fields body = None ->
  post_correlate fields body w = (Raises RequestValidationError, w).
Proof. intros Hbody. unfold post_correlate. now rewrite Hbody. Qed.

Lemma model_validate_object (CR : Type)
    (fields : list (string * value) -> option CR) (body : value) (request : CR) :
  model_validate fields body = Some request ->
  exists items, body = VDict items /\ fields items = Some request.
Proof. destruct body; try discriminate. simpl. eauto. Qed.


(** ** The upload: what the client sent *)

(** C2. A file whose name does not end in [.json] (the comparison is exact,
    so [.JSON] does not pass) is refused with status 400 and the detail of
    the invalid file type, whatever its bytes; the world is untouched, so
    no outbound call was made. *)
Theorem upload_eido_invalid_file_type env (file : UploadFile) (w : World) :
  endswith (filename file) ".json" = false ->
  upload_eido env file w =
    (Raises (HTTPException 400
               "Invalid file type. Only .json files are accepted."), w).
Proof. intros Hname. run. now rewrite Hname. Qed.

(** A [.json] file whose body the decoder rejects with [JSONDecodeError] is
    refused with status 400 and no outbound call is made. *)
Lemma upload_eido_invalid_payload env (file : UploadFile) (message : string)
    (w : World) :
  endswith (filename file) ".json" = true ->
  loads env (read file) = Raises (JSONDecodeError message) ->
  upload_eido env file w =
    (Raises (HTTPException 400 "Invalid JSON format in uploaded file."), w).
Proof. intros Hname Hbody. run. now rewrite Hname, Hbody. Qed.

(** The first [try] of the upload catches [JSONDecodeError] and nothing
    else. *)
Lemma upload_eido_loads_raises env (file : UploadFile) (e : exn) (w : World) :
  endswith (filename file) ".json" = true ->
  loads env (read file) = Raises e ->
  upload_eido env file w =
    (Raises (match e with
             | JSONDecodeError _ =>
                 HTTPException 400 "Invalid JSON format in uploaded file."
             | _ => Uncaught e
             end), w).
Proof. intros Hname Hbody. run. rewrite Hname, Hbody. now destruct e. Qed.

(** C3, on the bodies that are bytes but no text.  A [.json] file whose body
    the decoder rejects with [UnicodeDecodeError] is not answered with
    status 400: the [except json.JSONDecodeError] clause does not catch
    the exception, it leaves the handler uncaught and the client gets
    status 500.  No outbound call is made. *)
Theorem upload_eido_undecodable_body env (file : UploadFile)
    (message : string) (w : World) :
  endswith (filename file) ".json" = true ->
  loads env (read file) = Raises (UnicodeDecodeError message) ->
  exists r,
    upload_eido env file w = (Raises r, w) /\
    r = Uncaught (UnicodeDecodeError message) /\
    response_status r = 500.
Proof.
  intros Hname Hbody. eexists. split; [|split; reflexivity].
  run. now rewrite Hname, Hbody.
Qed.

(** ** The proxied routes: an error status from the upstream *)

Lemma get_incidents_status_error env (resp : Response) (body_text : string)
    (w : World) :
  upstream env (sent w) (incidents_request env) = Returns resp ->
  is_success resp = false ->
  text env resp = Returns body_text ->
  get_incidents env w =
    (Raises (HTTPException (status_code resp)
               ("Error from EIDO Agent: " +:+ body_text)),
     after_call w (incidents_request env)).
Proof. intros Hup Hstatus Htext. run. now rewrite Hup, Hstatus, Htext. Qed.

Lemma upload_eido_status_error env (file : UploadFile) (eido_data : value)
    (resp : Response) (body_text : string) (w : World) :
  endswith (filename file) ".json" = true ->
  loads env (read file) = Returns eido_data ->
  upstream env (sent w) (ingest_request env eido_data) = Returns resp ->
  is_success resp = false ->
  text env resp = Returns body_text ->
  upload_eido env file w =
    (Raises (HTTPException (status_code resp)
               ("Error from EIDO Agent: " +:+ body_text)),
     after_call w (ingest_request env eido_data)).
Proof.
  intros Hname Hbody Hup Hstatus Htext. run.
  rewrite Hname, Hbody. simpl. now rewrite Hup, Hstatus, Htext.
Qed.

(** When a proxied route (the listing of incidents, the upload) has made
    its outbound call, the upstream answers with a status outside 2xx and
    the text of the answer can be read, the route raises with that very
    status, and its detail ends in the text of the upstream body. *)
Lemma upstream_error_status env (CR : Type) (r : Route CR)
    (req : Request) (resp : Response) (body_text : string) (w : World) :
  outbound env r = Some req ->
  upstream env (sent w) req = Returns resp ->
  is_success resp = false ->
  text env resp = Returns body_text ->
  serve env r w =
    (Raises (HTTPException (status_code resp)
               ("Error from EIDO Agent: " +:+ body_text)),
     after_call w req) /\
  contains ("Error from EIDO Agent: " +:+ body_text) body_text.
Proof.
  intros Hout Hup Hstatus Htext. split; [|apply contains_app_r].
  destruct r as [|X| |file|request]; try discriminate.
  - injection Hout as <-. now apply get_incidents_status_error.
  - apply outbound_upload in Hout as (d & Hname & Hbody & ->).
    now apply upload_eido_status_error.
Qed.

(** C4, on the answers whose text cannot be read.  A proxied route has made
    its outbound call and the upstream answers with a status outside 2xx;
    the [except httpx.HTTPStatusError] clause reads [e.response.text] to
    build the detail, and when that raises (the body is labelled with a
    charset whose decoder refuses it) no clause catches the exception: it
    leaves the handler, and the client gets status 500 instead of the
    status of the upstream. *)
Theorem upstream_error_unreadable_text env (CR : Type) (r : Route CR)
    (req : Request) (resp : Response) (e : exn) (w : World) :
  outbound env r = Some req ->
  upstream env (sent w) req = Returns resp ->
  is_success resp = false ->
  text env resp = Raises e ->
  serve env r w = (Raises (Uncaught e), after_call w req) /\
  response_status (Uncaught e) = 500.
Proof.
  intros Hout Hup Hstatus Htext. split; [|reflexivity].
  destruct r as [|X| |file|request]; try discriminate.
  - injection Hout as <-. run. now rewrite Hup, Hstatus, Htext.
  - apply outbound_upload in Hout as (d & Hname & Hbody & ->).
    run. rewrite Hname, Hbody. simpl. now rewrite Hup, Hstatus, Htext.
Qed.

(** ** The proxied routes: the upstream cannot be reached *)

Lemma get_incidents_request_error env (cls : RequestErrorClass)
    (message : string) (w : World) :
  upstream env (sent w) (incidents_request env) =
    Raises (RequestError cls message) ->
  get_incidents env w =
    (Raises (HTTPException 502
               ("Error connecting to EIDO Agent: " +:+ message)),
     after_call w (incidents_request env)).
Proof. intros Hup. run. now rewrite Hup. Qed.

Lemma upload_eido_request_error env (file : UploadFile) (eido_data : value)
    (cls : RequestErrorClass) (message : string) (w : World) :
  endswith (filename file) ".json" = true ->
  loads env (read file) = Returns eido_data ->
  upstream env (sent w) (ingest_request env eido_data) =
    Raises (RequestError cls message) ->
  upload_eido env file w =
    (Raises (HTTPException 502
               ("Could not connect to EIDO Agent: " +:+ message)),
     after_call w (ingest_request env eido_data)).
Proof.
  intros Hname Hbody Hup. run.
  rewrite Hname, Hbody. simpl. now rewrite Hup.
Qed.

(** C5. When the outbound call of a proxied route fails at the network
    level, with whichever [httpx.RequestError], the route raises with the
    fixed status 502; the detail carries the text of the failure. *)
Theorem network_failure_bad_gateway env (CR : Type) (r : Route CR)
    (req : Request) (cls : RequestErrorClass) (message : string) (w : World) :
  outbound env r = Some req ->
  upstream env (sent w) req = Raises (RequestError cls message) ->
  exists detail,
    serve env r w = (Raises (HTTPException 502 detail), after_call w req) /\
    contains detail message.
Proof.
  intros Hout Hup.
  destruct r as [|X| |file|request]; try discriminate.
  - injection Hout as <-.
    exists ("Error connecting to EIDO Agent: " +:+ message).
    split; [|apply contains_app_r].
    exact (get_incidents_request_error env cls message w Hup).
  - apply outbound_upload in Hout as (d & Hname & Hbody & ->).
    exists ("Could not connect to EIDO Agent: " +:+ message).
    split; [|apply contains_app_r].
    exact (upload_eido_request_error env file d cls message w Hname Hbody Hup).
Qed.

(** ** The proxied routes: a success status over a body that is no JSON *)

(** The ingest endpoint answers 2xx and the decoder rejects the body with
    [JSONDecodeError]: the upload raises with status 502, which is not the
    400 of a malformed upload. *)
Lemma upload_eido_invalid_response env (file : UploadFile) (eido_data : value)
    (resp : Response) (message : string) (w : World) :
  endswith (filename file) ".json" = true ->
  loads env (read file) = Returns eido_data ->
  upstream env (sent w) (ingest_request env eido_data) = Returns resp ->
  is_success resp = true ->
  json env resp = Raises (JSONDecodeError message) ->
  upload_eido env file w =
    (Raises (HTTPException 502
               "Received an invalid response from the EIDO Agent."),
     after_call w (ingest_request env eido_data)).
Proof.
  intros Hname Hbody Hup Hstatus Hjson. run.
  rewrite Hname, Hbody. simpl. now rewrite Hup, Hstatus, Hjson.
Qed.

(** C6, on the bodies that are bytes but no text.  The ingest endpoint
    answers 2xx and the decoder rejects the body with [UnicodeDecodeError]:
    the [except json.JSONDecodeError] clause of the upload does not catch
    it, the catch-all clause does, and the upload raises with status 500,
    not 502. *)
Theorem upload_eido_undecodable_response env (file : UploadFile)
    (eido_data : value) (resp : Response) (message : string) (w : World) :
  endswith (filename file) ".json" = true ->
  loads env (read file) = Returns eido_data ->
  upstream env (sent w) (ingest_request env eido_data) = Returns resp ->
  is_success resp = true ->
  json env resp = Raises (UnicodeDecodeError message) ->
  upload_eido env file w =
    (Raises (HTTPException 500 ("An unexpected error occurred: " +:+ message)),
     after_call w (ingest_request env eido_data)).
Proof.
  intros Hname Hbody Hup Hstatus Hjson. run.
  rewrite Hname, Hbody. simpl. now rewrite Hup, Hstatus, Hjson.
Qed.

(** C10. The incidents endpoint answers 2xx and the decoder rejects the
    body: the listing has no clause for that, its catch-all clause raises
    with status 500 and the decoder's message.  It is not the status 502
    with which the upload answers a [JSONDecodeError] on the body of the
    same response. *)
Theorem get_incidents_invalid_response env (resp : Response) (e : exn)
    (w : World) :
  upstream env (sent w) (incidents_request env) = Returns resp ->
  is_success resp = true ->
  json env resp = Raises e ->
  invalid_json e = true ->
  get_incidents env w =
    (Raises (HTTPException 500
               ("An unexpected error occurred while fetching incidents: "
                  +:+ str e)),
     after_call w (incidents_request env)) /\
  forall (file : UploadFile) (eido_data : value) (message : string)
         (w' : World),
    endswith (filename file) ".json" = true ->
    loads env (read file) = Returns eido_data ->
    upstream env (sent w') (ingest_request env eido_data) = Returns resp ->
    e = JSONDecodeError message ->
    upload_eido env file w' =
      (Raises (HTTPException 502
                 "Received an invalid response from the EIDO Agent."),
       after_call w' (ingest_request env eido_data)).
Proof.
  intros Hup Hstatus Hjson He. split.
  - run. rewrite Hup, Hstatus, Hjson.
    destruct e; try discriminate; reflexivity.
  - intros file d message w' Hname Hbody Hup' ->.
    exact (upload_eido_invalid_response env file d resp message w'
             Hname Hbody Hup' Hstatus Hjson).
Qed.

(** ** The theorems at work on the examples *)

(** [data.txt] is refused for its name. *)
Lemma upload_eido_invalid_file_type_witness :
  endswith "data.txt" ".json" = false /\
  upload_eido (sample_env (Returns server_error))
    (mkUploadFile "data.txt" (bytes_of "[1, 2]")) initial =
    (Raises (HTTPException 400
               "Invalid file type. Only .json files are accepted."), initial).
Proof.
  split; [reflexivity|].
  apply upload_eido_invalid_file_type. reflexivity.
Defined.

(** The suffix is compared as written: [DATA.JSON] is refused as well. *)
Example upload_eido_upper_case_suffix :
  upload_eido (sample_env (Returns server_error))
    (mkUploadFile "DATA.JSON" (bytes_of "[1, 2]")) initial =
    (Raises (HTTPException 400
               "Invalid file type. Only .json files are accepted."), initial).
Proof. reflexivity. Qed.

(** [data.json] holding malformed text is refused with status 400. *)
Example upload_eido_malformed_text :
  upload_eido (sample_env (Returns server_error))
    (data_json (bytes_of "not valid json{")) initial =
    (Raises (HTTPException 400 "Invalid JSON format in uploaded file."),
     initial).
Proof. now eapply upload_eido_invalid_payload. Qed.

(** [data.json] holding the single byte [0xff] is not: the
    [UnicodeDecodeError] of the decoder leaves the handler. *)
Lemma upload_eido_undecodable_body_witness :
  exists r,
    upload_eido (sample_env (Returns server_error)) (data_json [xff]) initial =
      (Raises r, initial) /\
    r = Uncaught (UnicodeDecodeError
          "'utf-8' codec can't decode byte 0xff in position 0: invalid start byte") /\
    response_status r = 500.
Proof.
  exact (upload_eido_undecodable_body (sample_env (Returns server_error))
           (data_json [xff]) _ initial eq_refl eq_refl).
Defined.

(** So a body that the decoder rejects is not always answered with 400. *)
Lemma upload_eido_rejected_body_not_always_400 :
  ~ (forall env file e w,
        endswith (filename file) ".json" = true ->
        loads env (read file) = Raises e ->
        invalid_json e = true ->
        exists detail, upload_eido env file w = (Raises (HTTPException 400 detail), w)).
Proof.
  intros H.
  destruct (H (sample_env (Returns server_error)) (data_json [xff]) _ initial
              eq_refl eq_refl eq_refl) as [detail Hd].
  discriminate Hd.
Qed.

(** The ingest endpoint answers 500 [server error]: the upload raises with
    status 500 and a detail that holds [server error]. *)
Lemma upstream_error_status_witness :
  serve (sample_env (Returns server_error)) (CorrelationRequest := value)
    (UploadEido (data_json (bytes_of "[1, 2]"))) initial =
    (Raises (HTTPException 500 "Error from EIDO Agent: server error"),
     after_call initial
       (mkRequest POST "http://eido-agent:8000/api/v1/ingest"
          (Some (VList [VInt 1; VInt 2])))) /\
  contains "Error from EIDO Agent: server error" "server error".
Proof.
  exact (upstream_error_status (sample_env (Returns server_error)) value
           (UploadEido (data_json (bytes_of "[1, 2]"))) _ server_error _ initial
           eq_refl eq_refl eq_refl eq_refl).
Defined.

(** The incidents endpoint answers 404 over ASCII that it labels as UTF-16:
    reading the text raises, and the listing lets the [UnicodeError] out. *)
Lemma upstream_error_unreadable_text_witness :
  serve (sample_env (Returns not_found_utf_16)) (CorrelationRequest := value)
    GetIncidents initial =
    (Raises (Uncaught (OtherException "UnicodeError"
                         "UTF-16 stream does not start with BOM")),
     after_call initial
       (mkRequest GET "http://eido-agent:8000/api/v1/incidents" None)) /\
  response_status
    (Uncaught (OtherException "UnicodeError"
                 "UTF-16 stream does not start with BOM")) = 500.
Proof.
  exact (upstream_error_unreadable_text (sample_env (Returns not_found_utf_16))
           value GetIncidents _ not_found_utf_16 _ initial
           eq_refl eq_refl eq_refl eq_refl).
Defined.

(** So an error status of the upstream is not always passed on. *)
Lemma upstream_error_not_always_passed_on :
  ~ (forall env (CR : Type) (r : Route CR) req resp w,
        outbound env r = Some req ->
        upstream env (sent w) req = Returns resp ->
        is_success resp = false ->
        exists detail w',
          serve env r w = (Raises (HTTPException (status_code resp) detail), w')).
Proof.
  intros H.
  destruct (H (sample_env (Returns not_found_utf_16)) value GetIncidents
              _ not_found_utf_16 initial eq_refl eq_refl eq_refl)
    as (detail & w' & Hd).
  discriminate Hd.
Qed.

(** The upload does the same on such an answer of the ingest endpoint. *)
Example upload_eido_unreadable_text :
  (upload_eido (sample_env (Returns not_found_utf_16))
     (data_json (bytes_of "[1, 2]")) initial).1 =
    Raises (Uncaught (OtherException "UnicodeError"
                        "UTF-16 stream does not start with BOM")).
Proof. reflexivity. Qed.

(** So does the listing when the incidents endpoint answers that. *)
Example get_incidents_server_error :
  (get_incidents (sample_env (Returns server_error)) initial).1 =
    Raises (HTTPException 500 "Error from EIDO Agent: server error").
Proof. reflexivity. Qed.

(** The connection is refused: the listing raises with status 502. *)
Lemma network_failure_bad_gateway_witness :
  exists detail,
    serve (sample_env (Raises refused)) (CorrelationRequest := value)
      GetIncidents initial =
      (Raises (HTTPException 502 detail),
       after_call initial
         (mkRequest GET "http://eido-agent:8000/api/v1/incidents" None)) /\
    contains detail "All connection attempts failed".
Proof.
  exact (network_failure_bad_gateway (sample_env (Raises refused)) value
           GetIncidents _ ConnectError "All connection attempts failed" initial
           eq_refl eq_refl).
Defined.

(** A read timeout on the upload is answered with 502 as well. *)
Example upload_eido_read_timeout :
  (upload_eido (sample_env (Raises (RequestError ReadTimeout "timed out")))
     (data_json (bytes_of "[1, 2]")) initial).1 =
    Raises (HTTPException 502 "Could not connect to EIDO Agent: timed out").
Proof. reflexivity. Qed.

(** The ingest endpoint answers 200 over malformed text: status 502. *)
Example upload_eido_malformed_response :
  (upload_eido (sample_env (Returns (response_of 200 "<html>")))
     (data_json (bytes_of "[1, 2]")) initial).1 =
    Raises (HTTPException 502
              "Received an invalid response from the EIDO Agent.").
Proof. reflexivity. Qed.

(** The ingest endpoint answers 200 over bytes that are no text: the upload
    raises with status 500. *)
Lemma upload_eido_undecodable_response_witness :
  upload_eido (sample_env (Returns garbage_response))
    (data_json (bytes_of "[1, 2]")) initial =
    (Raises (HTTPException 500
       ("An unexpected error occurred: " +:+
        "'utf-8' codec can't decode byte 0xff in position 0: invalid start byte")),
     after_call initial
       (mkRequest POST "http://eido-agent:8000/api/v1/ingest"
          (Some (VList [VInt 1; VInt 2])))).
Proof.
  exact (upload_eido_undecodable_response (sample_env (Returns garbage_response))
           (data_json (bytes_of "[1, 2]")) _ garbage_response _ initial
           eq_refl eq_refl eq_refl eq_refl eq_refl).
Defined.

(** So a success status over a body that the decoder rejects is not always
    answered with 502. *)
Lemma upload_eido_rejected_response_not_always_502 :
  ~ (forall env file eido_data resp e w,
        endswith (filename file) ".json" = true ->
        loads env (read file) = Returns eido_data ->
        upstream env (sent w) (ingest_request env eido_data) = Returns resp ->
        is_success resp = true ->
        json env resp = Raises e ->
        invalid_json e = true ->
        exists detail w',
          upload_eido env file w = (Raises (HTTPException 502 detail), w')).
Proof.
  intros H.
  destruct (H (sample_env (Returns garbage_response))
              (data_json (bytes_of "[1, 2]")) _ garbage_response _ initial
              eq_refl eq_refl eq_refl eq_refl eq_refl eq_refl)
    as (detail & w' & Hd).
  discriminate Hd.
Qed.

(** The incidents endpoint answers 200 over malformed text: the listing
    raises with status 500, where the upload raises with 502. *)
Lemma get_incidents_invalid_response_witness :
  get_incidents (sample_env (Returns (response_of 200 "<html>"))) initial =
    (Raises (HTTPException 500
       ("An unexpected error occurred while fetching incidents: " +:+
        "Expecting value: line 1 column 1 (char 0)")),
     after_call initial
       (mkRequest GET "http://eido-agent:8000/api/v1/incidents" None)).
Proof.
  exact (proj1 (get_incidents_invalid_response
                  (sample_env (Returns (response_of 200 "<html>")))
                  (response_of 200 "<html>")
                  (JSONDecodeError "Expecting value: line 1 column 1 (char 0)")
                  initial eq_refl eq_refl eq_refl eq_refl)).
Defined.

(** A successful listing hands the decoded body back as it is. *)
Example get_incidents_success :
  (get_incidents (sample_env (Returns (response_of 200 "[1, 2]"))) initial).1 =
    Returns (VList [VInt 1; VInt 2]).
Proof. reflexivity. Qed.

(** A good upload makes exactly one call, a POST of the decoded body. *)
Example upload_eido_one_post :
  sent (upload_eido (sample_env (Returns (response_of 200 "[1, 2]")))
          (data_json (bytes_of "[1, 2]")) initial).2 =
    [mkRequest POST "http://eido-agent:8000/api/v1/ingest"
       (Some (VList [VInt 1; VInt 2]))].
Proof. reflexivity. Qed.

(** Claiming [INC-1] twice from the empty set lists it once. *)
Example claim_twice_lists_once :
  serve_all (sample_env (Raises refused)) (CorrelationRequest := value)
    [ClaimIncident "INC-1"; ClaimIncident "INC-1"] initial =
    mkWorld {["INC-1"]} [] /\
  elements ({["INC-1"]} : gset string) = ["INC-1"].
Proof.
  split; [|apply elements_singleton]. simpl.
  now rewrite (assoc_L (∪)), (idemp_L (∪)), (right_id_L ∅ (∪)).
Qed.

(** * Further properties of the handlers *)

(** ** Sequences of requests *)

(** The set after a sequence of requests is the set before it together with
    the identifiers the sequence claims. *)
Lemma serve_all_claimed env {CR : Type} (rs : list (Route CR)) (w : World) :
  claimed_incidents (serve_all env rs w) =
    claimed_incidents w ∪ list_to_set (omap claimed_id rs).
Proof.
  revert w. induction rs as [|r rs IH]; intros w; simpl.
  - now rewrite (right_id_L ∅ (∪)).
  - rewrite IH, serve_claimed. destruct r as [|X| |file|request]; simpl;
      try reflexivity.
    now rewrite (comm_L (∪) {[X]}), <- (assoc_L (∪)).
Qed.

(** X8. After any sequence of requests the listing of the claims returns,
    without touching the world, a list without repetition that holds
    exactly the identifiers that were in the set before and those the
    sequence claimed. *)
Theorem get_claimed_incidents_after env (CR : Type) (rs : list (Route CR))
    (w : World) :
  exists ids,
    get_claimed_incidents (serve_all env rs w) =
      (Returns ids, serve_all env rs w) /\
    NoDup ids /\
    forall x, x ∈ ids <-> x ∈ claimed_incidents w \/ ClaimIncident x ∈ rs.
Proof.
  eexists. split; [reflexivity|]. split; [apply NoDup_elements|].
  intros x. rewrite elem_of_elements, serve_all_claimed, elem_of_union,
    elem_of_list_to_set, list_elem_of_omap.
  split; intros [Hx|Hx]; auto; right.
  - destruct Hx as ([] & Hin & [= ->]). exact Hin.
  - exists (ClaimIncident x). split; [exact Hx | reflexivity].
Qed.

(** X11. The set of claimed incidents does not depend on the order in which
    the requests were served. *)
Theorem serve_all_claimed_perm env (CR : Type) (rs rs' : list (Route CR))
    (w : World) :
  rs ≡ₚ rs' ->
  claimed_incidents (serve_all env rs w) =
  claimed_incidents (serve_all env rs' w).
Proof. intros Hperm. rewrite !serve_all_claimed. now rewrite Hperm. Qed.

(** X9. The outbound calls of a sequence of requests are those its routes
    make, one after the other and at most one for each request. *)
Theorem serve_all_sent env (CR : Type) (rs : list (Route CR)) (w : World) :
  sent (serve_all env rs w) = sent w ++ omap (outbound env) rs /\
  (length (sent (serve_all env rs w)) <= length (sent w) + length rs)%nat.
Proof.
  assert (Hsent : forall rs w,
    sent (serve_all env (CorrelationRequest := CR) rs w) =
      sent w ++ omap (outbound env) rs).
  { clear. induction rs as [|r rs IH]; intros w; simpl.
    - now rewrite app_nil_r.
    - rewrite IH, serve_sent, <- app_assoc. f_equal.
      now destruct (outbound env r). }
  split; [apply Hsent|].
  rewrite Hsent, length_app. apply Nat.add_le_mono_l.
  clear. induction rs as [|r rs IH]; [reflexivity|].
  change (omap (outbound env) (r :: rs))
    with (match outbound env r with
          | Some req => req :: omap (outbound env) rs
          | None => omap (outbound env) rs
          end).
  destruct (outbound env r); simpl; lia.
Qed.

(** ** What a returned value is *)

(** Destructs what the handler in hypothesis [H] scrutinises, innermost
    first, and drops the cases in which [H] equates different outcomes. *)
Ltac cases_in H :=
  repeat match type of H with
         | context [negb ?b] => destruct b eqn:?; simpl in H
         | context [match ?x with _ => _ end] =>
             lazymatch x with
             | context [match _ with _ => _ end] => fail
             | _ => destruct x eqn:?; simpl in H
             end
         end;
  try discriminate H.

(** X1. The listing of incidents returns a value exactly when the incidents
    endpoint answered its one GET with a 2xx status and a body that
    decodes; the value is the decoded body, unchanged. *)
Theorem get_incidents_returns env (v : value) (w w' : World) :
  get_incidents env w = (Returns v, w') <->
  exists resp,
    upstream env (sent w) (incidents_request env) = Returns resp /\
    is_success resp = true /\
    json env resp = Returns v /\
    w' = after_call w (incidents_request env).
Proof.
  split.
  - intros H. run. cases_in H. injection H as <- <-. eauto.
  - intros (resp & Hup & Hstatus & Hjson & ->). run.
    now rewrite Hup, Hstatus, Hjson.
Qed.

(** X2. The upload returns a value exactly when the file name ends in
    [.json], the body decodes, the ingest endpoint answered the POST of the
    decoded body with a 2xx status and its answer decodes; the value is the
    decoded answer, and that POST is the one call made. *)
Theorem upload_eido_returns env (file : UploadFile) (v : value)
    (w w' : World) :
  upload_eido env file w = (Returns v, w') <->
  exists eido_data resp,
    endswith (filename file) ".json" = true /\
    loads env (read file) = Returns eido_data /\
    upstream env (sent w) (ingest_request env eido_data) = Returns resp /\
    is_success resp = true /\
    json env resp = Returns v /\
    w' = after_call w (ingest_request env eido_data).
Proof.
  split.
  - intros H. run. cases_in H. injection H as <- <-. eauto 10.
  - intros (d & resp & Hname & Hbody & Hup & Hstatus & Hjson & ->). run.
    rewrite Hname, Hbody. simpl. now rewrite Hup, Hstatus, Hjson.
Qed.

(** ** What an error tells about its cause *)

(** X7. The upload is refused for its file type exactly when the file name
    does not have the suffix [.json]; nothing else in the handler produces
    that answer, and the world is untouched. *)
Theorem upload_eido_invalid_file_type_iff env (file : UploadFile)
    (w w' : World) :
  upload_eido env file w =
    (Raises (HTTPException 400
               "Invalid file type. Only .json files are accepted."), w') <->
  (~ exists p, filename file = p +:+ ".json") /\ w' = w.
Proof.
  rewrite <- endswith_spec. split.
  - intros H. run. cases_in H. injection H as <-.
    split; [congruence | reflexivity].
  - intros [Hname ->]. run.
    destruct (endswith (filename file) ".json"); [now destruct Hname|].
    reflexivity.
Qed.

(** X3. The upload is refused for its JSON format exactly when the file
    name passed and [json.loads] raised [JSONDecodeError] on the body;
    nothing was sent then. *)
Theorem upload_eido_invalid_payload_iff env (file : UploadFile)
    (w w' : World) :
  upload_eido env file w =
    (Raises (HTTPException 400 "Invalid JSON format in uploaded file."), w') <->
  endswith (filename file) ".json" = true /\
  (exists message, loads env (read file) = Raises (JSONDecodeError message)) /\
  w' = w.
Proof.
  split.
  - intros H. run. cases_in H. injection H as <-. eauto.
  - intros (Hname & (message & Hbody) & ->).
    now apply upload_eido_invalid_payload with message.
Qed.

(** X4. The upload answers 502 with the detail of the invalid response
    exactly when its call to the ingest endpoint was made and the guarded
    block raised [JSONDecodeError]: from the decoding of a 2xx answer, or
    from the call itself. *)
Theorem upload_eido_invalid_response_iff env (file : UploadFile)
    (w w' : World) :
  upload_eido env file w =
    (Raises (HTTPException 502
               "Received an invalid response from the EIDO Agent."), w') <->
  exists eido_data message,
    endswith (filename file) ".json" = true /\
    loads env (read file) = Returns eido_data /\
    w' = after_call w (ingest_request env eido_data) /\
    (upstream env (sent w) (ingest_request env eido_data) =
       Raises (JSONDecodeError message) \/
     exists resp,
       upstream env (sent w) (ingest_request env eido_data) = Returns resp /\
       is_success resp = true /\
       json env resp = Raises (JSONDecodeError message)).
Proof.
  split.
  - intros H. run. cases_in H; injection H as <-; eauto 12.
  - intros (d & message & Hname & Hbody & -> & [Hup | (resp & Hup & Hs & Hj)]);
      run; rewrite Hname, Hbody; simpl.
    + now rewrite Hup.
    + now rewrite Hup, Hs, Hj.
Qed.

(** ** What escapes the handlers *)

(** X5. The listing of incidents makes its one GET whatever happens next,
    and an [Exception] escapes it from one place only: the reading of
    [e.response.text] inside the [except httpx.HTTPStatusError] clause,
    reached when the upstream answered outside 2xx (or the guarded block
    raised [HTTPStatusError] itself).  Everything else it raises is an
    [HTTPException], or an exception outside [Exception] that it lets
    through. *)
Theorem get_incidents_leaks_only_text env (w : World) :
  (get_incidents env w).2 = after_call w (incidents_request env) /\
  forall e,
    (get_incidents env w).1 = Raises (Uncaught e) ->
    is_Exception e = true ->
    exists resp,
      text env resp = Raises e /\
      ((upstream env (sent w) (incidents_request env) = Returns resp /\
        is_success resp = false) \/
       (exists message,
           upstream env (sent w) (incidents_request env) =
             Raises (HTTPStatusError message resp)) \/
       (exists message resp',
           upstream env (sent w) (incidents_request env) = Returns resp' /\
           is_success resp' = true /\
           json env resp' = Raises (HTTPStatusError message resp))).
Proof.
  split.
  - run. cases; reflexivity.
  - intros e H He. run.
    cases_in H; injection H as <-; try discriminate He; eauto 10.
Qed.


(** ** What the handlers do not read *)

(** X10. The set of claimed incidents has no say in what the other handlers
    answer: from two worlds with the same outbound history, the listing of
    incidents, the upload, the claim and the correlation give the same
    outcome, whatever has been claimed in either. *)
Theorem claims_do_not_interfere env (CR : Type) (w1 w2 : World) :
  sent w1 = sent w2 ->
  (get_incidents env w1).1 = (get_incidents env w2).1 /\
  (forall file, (upload_eido env file w1).1 = (upload_eido env file w2).1) /\
  (forall X, (claim_incident X w1).1 = (claim_incident X w2).1) /\
  (forall request : CR,
      (correlate_incident request w1).1 = (correlate_incident request w2).1).
Proof.
  intros Hsent. repeat split; try reflexivity.
  - run. rewrite Hsent. cases; reflexivity.
  - intros file. run.
    destruct (endswith (filename file) ".json"); simpl; [|reflexivity].
    destruct (loads env (read file)) as [d|e]; simpl;
      [|destruct e; reflexivity].
    rewrite Hsent. cases; reflexivity.
Qed.

(** ** The catch-all clauses *)

(** X12. When the guarded block of a proxied route raises an [Exception]
    that no earlier clause names, from the call itself or from the decoding
    of a 2xx answer, the route raises with status 500 and hands the text of
    the exception to the client in the detail. *)
Theorem unexpected_error_is_internal env (CR : Type) (r : Route CR)
    (req : Request) (e : exn) (w : World) :
  outbound env r = Some req ->
  upstream env (sent w) req = Raises e \/
    (exists resp,
        upstream env (sent w) req = Returns resp /\
        is_success resp = true /\
        json env resp = Raises e) ->
  reaches_catch_all r e = true ->
  exists detail,
    serve env r w = (Raises (HTTPException 500 detail), after_call w req) /\
    contains detail (str e).
Proof.
  intros Hout Hraise He.
  destruct r as [|X| |file|request]; try discriminate.
  - injection Hout as <-.
    exists ("An unexpected error occurred while fetching incidents: " +:+ str e).
    split; [|apply contains_app_r].
    destruct Hraise as [Hup | (resp & Hup & Hs & Hj)]; run.
    + rewrite Hup. destruct e; try discriminate; reflexivity.
    + rewrite Hup, Hs, Hj. destruct e; try discriminate; reflexivity.
  - apply outbound_upload in Hout as (d & Hname & Hbody & ->).
    exists ("An unexpected error occurred: " +:+ str e).
    split; [|apply contains_app_r].
    destruct Hraise as [Hup | (resp & Hup & Hs & Hj)]; run;
      rewrite Hname, Hbody; simpl.
    + rewrite Hup. destruct e; try discriminate; reflexivity.
    + rewrite Hup, Hs, Hj. destruct e; try discriminate; reflexivity.
Qed.

(** ** The further properties at work on the examples *)


(** The upload of a good file answers the same before and after a claim. *)
Lemma claims_do_not_interfere_witness :
  let env := sample_env (Returns (response_of 200 "[1, 2]")) in
  let claimed := (claim_incident "INC-1" initial).2 in
  (get_incidents env initial).1 = (get_incidents env claimed).1 /\
  (forall file, (upload_eido env file initial).1 = (upload_eido env file claimed).1) /\
  (forall X, (claim_incident X initial).1 = (claim_incident X claimed).1) /\
  (forall request : value,
      (correlate_incident request initial).1 =
      (correlate_incident request claimed).1).
Proof.
  exact (claims_do_not_interfere
           (sample_env (Returns (response_of 200 "[1, 2]"))) value
           initial (claim_incident "INC-1" initial).2 eq_refl).
Defined.

(** Claiming [INC-1] then [INC-2] around a listing, or the other way round. *)
Lemma serve_all_claimed_perm_witness :
  let env := sample_env (Raises refused) in
  claimed_incidents
    (serve_all env (CorrelationRequest := value)
       [ClaimIncident "INC-1"; GetIncidents; ClaimIncident "INC-2"] initial) =
  claimed_incidents
    (serve_all env (CorrelationRequest := value)
       [ClaimIncident "INC-2"; ClaimIncident "INC-1"; GetIncidents] initial).
Proof.
  exact (serve_all_claimed_perm (sample_env (Raises refused)) value
           [ClaimIncident "INC-1"; GetIncidents; ClaimIncident "INC-2"]
           [ClaimIncident "INC-2"; ClaimIncident "INC-1"; GetIncidents]
           initial
           (perm_trans
              (perm_skip (ClaimIncident "INC-1")
                 (perm_swap (ClaimIncident "INC-2") GetIncidents []))
              (perm_swap (ClaimIncident "INC-2") (ClaimIncident "INC-1")
                 [GetIncidents]))).
Defined.

(** The agent URL is no URL: the listing answers 500 and says why. *)
Lemma unexpected_error_is_internal_witness :
  let e := OtherException "InvalidURL" "Invalid port" in
  exists detail,
    serve (sample_env (Raises e)) (CorrelationRequest := value)
      GetIncidents initial =
      (Raises (HTTPException 500 detail),
       after_call initial
         (mkRequest GET "http://eido-agent:8000/api/v1/incidents" None)) /\
    contains detail "Invalid port".
Proof.
  exact (unexpected_error_is_internal
           (sample_env (Raises (OtherException "InvalidURL" "Invalid port")))
           value GetIncidents _ (OtherException "InvalidURL" "Invalid port")
           initial eq_refl (or_introl eq_refl) eq_refl).
Defined.

(** ** The correlation route on the examples *)



(** The same model accepts an object that has the field. *)
Example post_correlate_with_incident_id :
  post_correlate with_incident_id
    (VDict [("incident_id", VStr "INC-1")]) initial =
    (Returns (VDict [("status", VStr "new"); ("correlation_id", VNone)]),
     initial).
Proof. reflexivity. Qed.
